(** * diagram_maker: the flowchart page [app/page.tsx]

    A shallow embedding of the custom logic of the page: the two state
    arrays of [FlowchartMaker] with the [addNode] and [onConnect] handlers,
    the inline label editor [CustomNode], and the [exportAsImage] routine,
    followed by the properties proved about them. *)

From Stdlib Require Import ZArith Lia Bool List String Ascii.
From Stdlib Require Import Decimal DecimalString DecimalZ.
From Stdlib Require Import Floats.SpecFloat.
From stdpp Require Import gmap strings list fin_maps.

(* ===================================================================== *)
(** * JavaScript numbers *)
(* ===================================================================== *)

(** A JavaScript Number is an IEEE 754 binary64 value; the operations are
    the executable IEEE specification of the Standard Library. *)
Module Number.

Definition prec : Z := 53.
Definition emax : Z := 1024.

Definition t : Type := spec_float.

(** A numeric literal with an integral value, such as [500]. *)
Definition of_Z (z : Z) : t := binary_normalize prec emax z 0 false.

(** [a * b], [a < b] and [a <= b]. *)
Definition mul (a b : t) : t := SFmul prec emax a b.
Definition ltb (a b : t) : bool := SFltb a b.
Definition leb (a b : t) : bool := SFleb a b.

(** The values that are binary64 numbers. *)
Definition valid (a : t) : bool := valid_binary prec emax a.

(** What [Math.random()] may return: a number [r] with [0 <= r < 1]. *)
Definition is_random (r : t) : Prop :=
  valid r = true /\ leb (of_Z 0) r = true /\ ltb r (of_Z 1) = true.

(** ToString of an integral Number, as a template literal prints it:
    the decimal digits, with a sign for a negative value. *)
Definition toString (z : Z) : string := NilEmpty.string_of_int (Z.to_int z).

End Number.

(* ===================================================================== *)
(** * The data model: nodes, edges, connections *)
(* ===================================================================== *)

Module CustomNodeData.
(** [type CustomNodeData = { label: string }] *)
Record t : Type := { label : string }.
End CustomNodeData.

Record XYPosition : Type := { x : Number.t; y : Number.t }.

Module Node.
(** [Node<CustomNodeData>] with the fields the page sets. *)
Record t : Type := {
  id : string;
  type : string;
  position : XYPosition;
  data : CustomNodeData.t;
}.
End Node.

Module Edge.
(** [Edge]: the seeded edges carry an id and two ends only; an edge made
    from a connection also carries the handles and a type. *)
Record t : Type := {
  id : string;
  source : string;
  target : string;
  sourceHandle : option string;
  targetHandle : option string;
  type : option string;
}.
End Edge.

Module Connection.
(** Modelled from the spec: the [Connection] type of the graph library,
    the argument of [onConnect], whose declaration is not in the source.
    A connection is drawn between two node handles: it names the two
    nodes and, on each, the handle (the handles of [CustomNode] have no
    id of their own). *)
Record t : Type := {
  source : string;
  target : string;
  sourceHandle : option string;
  targetHandle : option string;
}.
End Connection.

Module EdgeParams.
(** The object [{ ...params, type: 'smoothstep' }]: a connection with a
    rendering type, not yet an edge (it has no id). *)
Record t : Type := {
  source : string;
  target : string;
  sourceHandle : option string;
  targetHandle : option string;
  type : option string;
}.

(** [{ ...params, type: ty }] *)
Definition spread (params : Connection.t) (ty : string) : t :=
  {| source := Connection.source params;
     target := Connection.target params;
     sourceHandle := Connection.sourceHandle params;
     targetHandle := Connection.targetHandle params;
     type := Some ty |}.
End EdgeParams.

(* ===================================================================== *)
(** * FlowchartMaker: the two state arrays and their handlers *)
(* ===================================================================== *)

(** The two [useState] cells of [FlowchartMaker]. *)
Record State : Type := { nodes : list Node.t; edges : list Edge.t }.

Definition seedNode (i : string) (px py : Z) (l : string) : Node.t :=
  {| Node.id := i;
     Node.type := "custom";
     Node.position := {| x := Number.of_Z px; y := Number.of_Z py |};
     Node.data := {| CustomNodeData.label := l |} |}.

Definition seedEdge (i s d : string) : Edge.t :=
  {| Edge.id := i; Edge.source := s; Edge.target := d;
     Edge.sourceHandle := None; Edge.targetHandle := None;
     Edge.type := None |}.

Definition initialNodes : list Node.t :=
  [ seedNode "1" 250 5 "Start";
    seedNode "2" 250 100 "Process";
    seedNode "3" 250 200 "End" ].

Definition initialEdges : list Edge.t :=
  [ seedEdge "e1-2" "1" "2"; seedEdge "e2-3" "2" "3" ].

Definition initialState : State :=
  {| nodes := initialNodes; edges := initialEdges |}.

(** [setNodes(f)] and [setEdges(f)] with a functional updater. *)
Definition setNodes (f : list Node.t -> list Node.t) (st : State) : State :=
  {| nodes := f (nodes st); edges := edges st |}.

Definition setEdges (f : list Edge.t -> list Edge.t) (st : State) : State :=
  {| nodes := nodes st; edges := f (edges st) |}.

(** What one run of [addNode] reads from its environment, in evaluation
    order: [Date.now()], then the two [Math.random()] draws. *)
Record AddNodeEnv : Type := {
  now : Z;
  random_x : Number.t;
  random_y : Number.t;
}.

(** The node built by [addNode]; [rendered] is the [nodes] array of the
    render whose closure the handler is. *)
Definition newNode (rendered : list Node.t) (env : AddNodeEnv) : Node.t :=
  {| Node.id := Number.toString (now env);
     Node.type := "custom";
     Node.data :=
       {| CustomNodeData.label := "Step " ++ Number.toString (Z.of_nat (length rendered) + 1) |};
     Node.position :=
       {| x := Number.mul (random_x env) (Number.of_Z 500);
          y := Number.mul (random_y env) (Number.of_Z 500) |} |}.

Definition addNode (rendered : list Node.t) (env : AddNodeEnv) : State -> State :=
  setNodes (fun nds => nds ++ [newNode rendered env]).

Section WithEdgeIds.

(** The id the graph library gives to an edge made from a connection;
    the page does not choose it. *)
Variable getEdgeId : EdgeParams.t -> string.

(** Modelled from the spec: [addEdge] of the graph library, which is not
    in the source. The specification says that connecting two node
    handles adds exactly one edge referencing those two node
    identifiers: the edge made from the parameters is appended. *)
Definition addEdge (edgeParams : EdgeParams.t) (eds : list Edge.t) : list Edge.t :=
  eds ++ [ {| Edge.id := getEdgeId edgeParams;
              Edge.source := EdgeParams.source edgeParams;
              Edge.target := EdgeParams.target edgeParams;
              Edge.sourceHandle := EdgeParams.sourceHandle edgeParams;
              Edge.targetHandle := EdgeParams.targetHandle edgeParams;
              Edge.type := EdgeParams.type edgeParams |} ].

Definition onConnect (params : Connection.t) : State -> State :=
  setEdges (fun eds => addEdge (EdgeParams.spread params "smoothstep") eds).

End WithEdgeIds.

(** A click on "Add Node". React commits the state and renders again
    before the next click is handled, so the handler that runs is the
    closure of a render of the current [nodes]. *)
Definition click_addNode (env : AddNodeEnv) (st : State) : State :=
  addNode (nodes st) env st.

(* ===================================================================== *)
(** * CustomNode: the inline label editor *)
(* ===================================================================== *)

Module CustomNode.

Record Props : Type := {
  id : string;
  data : CustomNodeData.t;
  selected : option bool;
}.

(** The two [useState] cells of the component. *)
Record State : Type := { isEditing : bool; label : string }.

(** The initial values of the cells, taken when the component mounts:
    [useState(false)] and [useState(data.label)]. *)
Definition mount (props : Props) : State :=
  {| isEditing := false; label := CustomNodeData.label (data props) |}.

Definition setIsEditing (b : bool) (st : State) : State :=
  {| isEditing := b; label := label st |}.

Definition setLabel (s : string) (st : State) : State :=
  {| isEditing := isEditing st; label := s |}.

(** The node content between the two handles: the text input with its
    value, or the label on display. *)
Inductive Content : Type :=
| Input (value : string)
| Display (text : string).

Definition render (props : Props) (st : State) : Content :=
  if isEditing st then Input (label st)
  else Display (CustomNodeData.label (data props)).

(** The DOM events the rendered content has a handler for. *)
Inductive Event : Type :=
| DoubleClick
| Change (value : string)
| Blur
| KeyDown (key : string).

Definition onChange (value : string) : State -> State := setLabel value.
Definition onBlur : State -> State := setIsEditing false.
Definition onKeyDown (key : string) (st : State) : State :=
  if String.eqb key "Enter" then setIsEditing false st else st.
Definition onDoubleClick : State -> State := setIsEditing true.

(** An event reaches the handler of the element that is rendered: the
    input has [onChange], [onBlur] and [onKeyDown], the displayed label
    has [onDoubleClick]; an event the rendered element has no handler for
    changes nothing. *)
Definition handle (props : Props) (st : State) (ev : Event) : State :=
  match render props st, ev with
  | Input _, Change value => onChange value st
  | Input _, Blur => onBlur st
  | Input _, KeyDown key => onKeyDown key st
  | Display _, DoubleClick => onDoubleClick st
  | _, _ => st
  end.

Definition run (props : Props) (st : State) (evs : list Event) : State :=
  fold_left (handle props) evs st.

End CustomNode.

(* ===================================================================== *)
(** * exportAsImage: rasterise the canvas and offer it as a download *)
(* ===================================================================== *)

(** A DOM node as the export filter sees it: an element has a class list,
    other nodes (text, comments) have none. *)
Inductive DomNode : Type :=
| Element (classList : list string)
| TextNode (text : string).

(** [node?.classList?.contains(c)]: [None] stands for [undefined]. *)
Definition classList_contains (node : option DomNode) (c : string) : option bool :=
  match node with
  | Some (Element classList) => Some (existsb (String.eqb c) classList)
  | Some (TextNode _) => None
  | None => None
  end.

(** [!v] for a value that is a boolean or [undefined]. *)
Definition js_not (v : option bool) : bool :=
  match v with
  | Some b => negb b
  | None => true
  end.

(** The options object handed to [toPng]. *)
Record Options : Type := {
  backgroundColor : string;
  filter : option DomNode -> bool;
}.

Definition exportOptions : Options :=
  {| backgroundColor := "#111827";
     filter := fun node => js_not (classList_contains node "react-flow__controls") |}.

(** A thrown JavaScript value. *)
Inductive JsError : Type := Thrown (message : string).

(** The anchor element made for the download. *)
Record Anchor : Type := { download : string; href : string }.

(** What the routine does to the world outside it, in order. *)
Inductive Effect : Type :=
| Rasterize (node : DomNode) (options : Options)
| CreateElement (tagName : string)
| Click (link : Anchor)
| ConsoleError (message : string) (err : JsError).

(** Computations that log their effects and may throw. *)
Definition Eff (A : Type) : Type := list Effect -> (JsError + A) * list Effect.

Definition ret {A : Type} (a : A) : Eff A := fun log => (inr a, log).

Definition throw {A : Type} (e : JsError) : Eff A := fun log => (inl e, log).

Definition bind {A B : Type} (c : Eff A) (k : A -> Eff B) : Eff B :=
  fun log =>
    match c log with
    | (inr a, log') => k a log'
    | (inl e, log') => (inl e, log')
    end.

Definition emit (ev : Effect) : Eff unit := fun log => (inr tt, log ++ [ev]).

(** [try { body } catch (err) { handler(err) }] *)
Definition try_catch {A : Type} (body : Eff A) (handler : JsError -> Eff A) : Eff A :=
  fun log =>
    match body log with
    | (inr a, log') => (inr a, log')
    | (inl e, log') => handler e log'
    end.

Declare Scope eff_scope.
Delimit Scope eff_scope with eff.
Notation "x <- c ;; k" := (bind c (fun x => k))
  (at level 100, c at next level, right associativity) : eff_scope.
Notation "c ;;; k" := (bind c (fun _ => k))
  (at level 100, right associativity) : eff_scope.

Section WithRasterizer.

(** The outcome of [toPng] for a node and options: the data URL it
    resolves with, or the error it rejects with. The rasteriser is the
    image library's; the routine only awaits it. *)
Variable toPng_outcome : DomNode -> Options -> JsError + string.

(** [await toPng(node, options)] *)
Definition toPng (node : DomNode) (options : Options) : Eff string :=
  fun log =>
    (toPng_outcome node options, log ++ [Rasterize node options]).

(** [document.createElement('a')]: a fresh anchor. *)
Definition createElement_a : Eff Anchor :=
  (emit (CreateElement "a") ;;; ret {| download := ""; href := "" |})%eff.

Definition set_download (name : string) (link : Anchor) : Anchor :=
  {| download := name; href := href link |}.

Definition set_href (url : string) (link : Anchor) : Anchor :=
  {| download := download link; href := url |}.

(** [link.click()] *)
Definition click (link : Anchor) : Eff unit := emit (Click link).

(** [console.error(message, err)] *)
Definition console_error (message : string) (err : JsError) : Eff unit :=
  emit (ConsoleError message err).

(** [exportAsImage]; [current] is [flowRef.current], [None] for [null].
    The result [inr tt] is a promise that resolves, [inl e] one that
    rejects with [e]. *)
Definition exportAsImage (current : option DomNode) : Eff unit :=
  match current with
  | None => ret tt
  | Some node =>
      try_catch
        (dataUrl <- toPng node exportOptions ;;
         link <- createElement_a ;;
         let link := set_download "flowchart.png" link in
         let link := set_href dataUrl link in
         click link)%eff
        (fun err => console_error "Error exporting image:" err)
  end.

End WithRasterizer.

(** The downloads a log holds: the anchors clicked. *)
Definition downloads (log : list Effect) : list Anchor :=
  omap (fun ev => match ev with Click link => Some link | _ => None end) log.

(** The rasterisations a log holds. *)
Definition rasterizations (log : list Effect) : list (DomNode * Options) :=
  omap (fun ev => match ev with Rasterize n o => Some (n, o) | _ => None end) log.

(** The diagnostic log lines a log holds. *)
Definition console_errors (log : list Effect) : list (string * JsError) :=
  omap (fun ev => match ev with ConsoleError m e => Some (m, e) | _ => None end) log.

(* ===================================================================== *)
(** * The page as a whole: the shared arrays and the mounted editors *)
(* ===================================================================== *)

Module App.

(** The shared state of [FlowchartMaker] and, for each node id, the local
    state of the [CustomNode] mounted for it; an id with no entry has the
    state the component mounts with. *)
Record t : Type := {
  flow : State;
  local : gmap string CustomNode.State;
}.

Definition initial : t := {| flow := initialState; local := ∅ |}.

(** The props the canvas passes to the [CustomNode] of a node. *)
Definition props_of (n : Node.t) : CustomNode.Props :=
  {| CustomNode.id := Node.id n;
     CustomNode.data := Node.data n;
     CustomNode.selected := None |}.

Definition local_state (app : t) (n : Node.t) : CustomNode.State :=
  default (CustomNode.mount (props_of n)) (local app !! Node.id n).

(** The node an id names on the canvas. *)
Definition find_node (i : string) (nds : list Node.t) : option Node.t :=
  List.find (fun n => String.eqb (Node.id n) i) nds.

(** The user actions that reach custom code. *)
Inductive Action : Type :=
| ClickAddNode (env : AddNodeEnv)
| Connect (params : Connection.t)
| NodeEvent (i : string) (ev : CustomNode.Event).

Section WithEdgeIds.

Variable getEdgeId : EdgeParams.t -> string.

Definition step (app : t) (a : Action) : t :=
  match a with
  | ClickAddNode env =>
      {| flow := click_addNode env (flow app); local := local app |}
  | Connect params =>
      {| flow := onConnect getEdgeId params (flow app); local := local app |}
  | NodeEvent i ev =>
      match find_node i (nodes (flow app)) with
      | Some n =>
          {| flow := flow app;
             local := <[ i := CustomNode.handle (props_of n) (local_state app n) ev ]>
                        (local app) |}
      | None => app
      end
  end.

Definition run (app : t) (actions : list Action) : t :=
  fold_left step actions app.

End WithEdgeIds.

(** The timestamps read by the add-node clicks of a list of actions. *)
Definition timestamps (actions : list Action) : list Z :=
  omap (fun a => match a with ClickAddNode env => Some (now env) | _ => None end)
       actions.

End App.

(* ===================================================================== *)
(** * The graph library's addEdge, with its guards *)
(* ===================================================================== *)

(** [onConnect] with the library function it calls made explicit: the
    page spreads the connection, tags it 'smoothstep' and stores what the
    library function returns as the new edge list. [onConnect] above is
    this handler at the appending [addEdge]. *)
Definition onConnect_with
    (libraryAddEdge : EdgeParams.t -> list Edge.t -> list Edge.t)
    (params : Connection.t) : State -> State :=
  setEdges (fun eds => libraryAddEdge (EdgeParams.spread params "smoothstep") eds).

Module ReactFlow.

(** [!h] for a handle: a missing handle and the empty string are falsy. *)
Definition no_handle (h : option string) : bool :=
  match h with
  | None => true
  | Some s => String.eqb s ""
  end.

(** [a === b || (!a && !b)] on two handles. *)
Definition same_handle (a b : option string) : bool :=
  match a, b with
  | Some s, Some t => String.eqb s t || (String.eqb s "" && String.eqb t "")
  | _, _ => no_handle a && no_handle b
  end.

(** [connectionExists(edge, edges)]: some edge of the list runs between
    the same two nodes and the same handles. *)
Definition connectionExists (edge : Edge.t) (eds : list Edge.t) : bool :=
  existsb
    (fun el =>
       String.eqb (Edge.source el) (Edge.source edge) &&
       String.eqb (Edge.target el) (Edge.target edge) &&
       same_handle (Edge.sourceHandle el) (Edge.sourceHandle edge) &&
       same_handle (Edge.targetHandle el) (Edge.targetHandle edge))
    eds.

Section WithEdgeIds.

Variable getEdgeId : EdgeParams.t -> string.

(** [{ ...edgeParams, id: getEdgeId(edgeParams) }] *)
Definition edge_of (edgeParams : EdgeParams.t) : Edge.t :=
  {| Edge.id := getEdgeId edgeParams;
     Edge.source := EdgeParams.source edgeParams;
     Edge.target := EdgeParams.target edgeParams;
     Edge.sourceHandle := EdgeParams.sourceHandle edgeParams;
     Edge.targetHandle := EdgeParams.targetHandle edgeParams;
     Edge.type := EdgeParams.type edgeParams |}.

(** Modelled from the library: [addEdge] of the graph library, which the
    page imports and which is not among its sources, as the library
    behaves on the running page. It returns the edge list as it is when
    an end of the connection is empty, and when a connection between the
    same nodes and handles is already among the edges; otherwise it
    appends the edge made from the parameters. The specification's
    sentence on connecting describes the last case only. *)
Definition addEdge (edgeParams : EdgeParams.t) (eds : list Edge.t) : list Edge.t :=
  if String.eqb (EdgeParams.source edgeParams) "" ||
     String.eqb (EdgeParams.target edgeParams) ""
  then eds
  else
    let edge := edge_of edgeParams in
    if connectionExists edge eds then eds else eds ++ [edge].

End WithEdgeIds.

End ReactFlow.

(* ===================================================================== *)
(** * nodeTypes, and readings of a node list *)
(* ===================================================================== *)

(** The components a node type can name. *)
Inductive NodeComponent : Type := CustomNodeComponent.

(** [const nodeTypes: NodeTypes = { custom: CustomNode }] *)
Definition nodeTypes : gmap string NodeComponent :=
  {[ "custom" := CustomNodeComponent ]}.

(** The labels of a node list, in order. *)
Definition labels (nds : list Node.t) : list string :=
  (fun n => CustomNodeData.label (Node.data n)) <$> nds.

(** A position with [0 <= x < 500] and [0 <= y < 500]. *)
Definition in_random_bounds (p : XYPosition) : Prop :=
  (Number.leb (Number.of_Z 0) (x p) = true /\
   Number.ltb (x p) (Number.of_Z 500) = true) /\
  (Number.leb (Number.of_Z 0) (y p) = true /\
   Number.ltb (y p) (Number.of_Z 500) = true).

(** The [Math.random()] draws read by the add-node clicks of a list of
    actions, in order. *)
Definition random_draws (actions : list App.Action) : list Number.t :=
  actions ≫= (fun a =>
    match a with
    | App.ClickAddNode env => [random_x env; random_y env]
    | _ => []
    end).

(** The default label of the [k]-th node of the list. *)
Definition step_label (k : nat) : string :=
  "Step " ++ Number.toString (Z.of_nat k).

(* ===================================================================== *)
(** * Sample inputs *)
(* ===================================================================== *)

(** The numbers 0.5 and 0.25, and the largest number below 1,
    [1 - 2 ^ -53]. *)
Definition one_half : Number.t := S754_finite false 4503599627370496 (-53).
Definition one_quarter : Number.t := S754_finite false 4503599627370496 (-54).
Definition below_one : Number.t := S754_finite false 9007199254740991 (-53).

(** Two runs of [addNode] that read the same millisecond from the clock. *)
Definition env_a : AddNodeEnv :=
  {| now := 1700000000000; random_x := one_half; random_y := one_quarter |}.
Definition env_b : AddNodeEnv :=
  {| now := 1700000000000; random_x := one_quarter; random_y := one_half |}.

(** A run one millisecond later. *)
Definition env_c : AddNodeEnv :=
  {| now := 1700000000001; random_x := one_quarter; random_y := one_quarter |}.

Definition sample_connection : Connection.t :=
  {| Connection.source := "1"; Connection.target := "3";
     Connection.sourceHandle := None; Connection.targetHandle := None |}.

(** The connection the seeded edge 'e1-2' already makes. *)
Definition existing_connection : Connection.t :=
  {| Connection.source := "1"; Connection.target := "2";
     Connection.sourceHandle := None; Connection.targetHandle := None |}.

(** Edge ids in the style of the graph library. *)
Definition sample_getEdgeId (p : EdgeParams.t) : string :=
  "reactflow__edge-" ++ EdgeParams.source p ++ "-" ++ EdgeParams.target p.

(** The canvas element, the zoom controls rendered inside it, and two
    rasterisers: one that fails, one that succeeds. *)
Definition sample_canvas : DomNode := Element ["h-[600px]"; "border"].
Definition sample_controls : DomNode := Element ["react-flow__panel"; "react-flow__controls"].
Definition failing_toPng (_ : DomNode) (_ : Options) : JsError + string :=
  inl (Thrown "tainted canvas").
Definition working_toPng (_ : DomNode) (_ : Options) : JsError + string :=
  inr "data:image/png;base64,iVBORw0KGgo=".

(** The props of the first seeded node. *)
Definition start_props : CustomNode.Props :=
  App.props_of (seedNode "1" 250 5 "Start").

(* ===================================================================== *)
(** * Rounding of a product in binary64 *)
(* ===================================================================== *)

Section Rounding.

Local Open Scope Z_scope.

(** [digits2_pos] counts the binary digits. *)
Lemma digits2_pos_bounds (p : positive) :
  2 ^ (Z.pos (digits2_pos p) - 1) <= Z.pos p < 2 ^ Z.pos (digits2_pos p).
Proof.
  induction p as [p IH | p IH |]; simpl digits2_pos.
  - rewrite Pos2Z.inj_succ.
    replace (Z.succ (Z.pos (digits2_pos p)) - 1) with (Z.succ (Z.pos (digits2_pos p) - 1)) by lia.
    rewrite !Z.pow_succ_r by lia. lia.
  - rewrite Pos2Z.inj_succ.
    replace (Z.succ (Z.pos (digits2_pos p)) - 1) with (Z.succ (Z.pos (digits2_pos p) - 1)) by lia.
    rewrite !Z.pow_succ_r by lia. lia.
  - simpl. lia.
Qed.

Lemma Zdigits2_bounds (m : Z) :
  0 < m -> 2 ^ (Zdigits2 m - 1) <= m < 2 ^ Zdigits2 m.
Proof.
  destruct m as [| p | p]; try lia. intros _. apply digits2_pos_bounds.
Qed.

Lemma Zdigits2_nonneg (m : Z) : 0 <= Zdigits2 m.
Proof. destruct m; simpl; lia. Qed.

(** A number below [2 ^ k] has at most [k] digits. *)
Lemma Zdigits2_le (m k : Z) : 0 <= m < 2 ^ k -> 0 <= k -> Zdigits2 m <= k.
Proof.
  intros [H0 Hlt] Hk.
  destruct (Z.eq_dec m 0) as [-> | Hne]; [simpl; lia |].
  assert (Hb := Zdigits2_bounds m ltac:(lia)).
  destruct (Z_le_gt_dec (Zdigits2 m) k) as [|Hgt]; [assumption | exfalso].
  assert (2 ^ k <= 2 ^ (Zdigits2 m - 1)) by (apply Z.pow_le_mono_r; lia).
  lia.
Qed.

(** [iter_pos] is iteration a number of times. *)
Lemma iter_pos_nat {A : Type} (f : A -> A) (p : positive) (a : A) :
  SpecFloat.iter_pos f p a = Nat.iter (Pos.to_nat p) f a.
Proof.
  revert a. induction p as [p IH | p IH |]; intros a; simpl SpecFloat.iter_pos.
  - rewrite !IH, Pos2Nat.inj_xI.
    replace (S (2 * Pos.to_nat p))%nat with (Pos.to_nat p + (Pos.to_nat p + 1))%nat by lia.
    rewrite !Nat.iter_add. reflexivity.
  - rewrite !IH, Pos2Nat.inj_xO.
    replace (2 * Pos.to_nat p)%nat with (Pos.to_nat p + Pos.to_nat p)%nat by lia.
    rewrite Nat.iter_add. reflexivity.
  - reflexivity.
Qed.

(** One shift halves the mantissa and keeps the bit shifted out. *)
Lemma shr_1_m (mrs : shr_record) :
  0 <= shr_m mrs -> shr_m (shr_1 mrs) = shr_m mrs / 2.
Proof.
  destruct mrs as [m r s]; simpl. intros Hm.
  destruct m as [| [p | p |] | p]; simpl; try reflexivity; try lia.
  - apply Z.div_unique with (r := 1); lia.
  - apply Z.div_unique with (r := 0); lia.
Qed.

Lemma shr_1_r (mrs : shr_record) :
  0 <= shr_m mrs -> shr_r (shr_1 mrs) = Z.odd (shr_m mrs).
Proof.
  destruct mrs as [m r s]; simpl. intros Hm.
  destruct m as [| [p | p |] | p]; simpl; try reflexivity; lia.
Qed.

Lemma shr_iter_m (k : nat) (mrs : shr_record) :
  0 <= shr_m mrs ->
  shr_m (Nat.iter k shr_1 mrs) = shr_m mrs / 2 ^ Z.of_nat k.
Proof.
  intros Hm. induction k as [| k IH].
  - simpl. now rewrite Z.div_1_r.
  - rewrite Nat2Z.inj_succ, Z.pow_succ_r by lia. simpl Nat.iter.
    rewrite shr_1_m; rewrite IH.
    + rewrite Z.div_div by lia. f_equal. lia.
    + apply Z.div_pos; lia.
Qed.

Lemma shr_iter_r (k : nat) (mrs : shr_record) :
  0 <= shr_m mrs ->
  shr_r (Nat.iter (S k) shr_1 mrs) = Z.odd (shr_m mrs / 2 ^ Z.of_nat k).
Proof.
  intros Hm. simpl Nat.iter. rewrite shr_1_r; rewrite shr_iter_m by assumption.
  - reflexivity.
  - apply Z.div_pos; lia.
Qed.

(** The shift of [shr], by a positive count [n]: the quotient by [2 ^ n],
    and as round bit the last bit shifted out. *)
Lemma shr_pos (mrs : shr_record) (e n : Z) :
  0 <= shr_m mrs -> 0 < n ->
  shr_m (fst (shr mrs e n)) = shr_m mrs / 2 ^ n /\
  shr_r (fst (shr mrs e n)) = Z.odd (shr_m mrs / 2 ^ (n - 1)) /\
  snd (shr mrs e n) = e + n.
Proof.
  intros Hm Hn. destruct n as [| p | p]; try lia. simpl.
  rewrite iter_pos_nat.
  destruct (Pos2Nat.is_succ p) as [k Hk]. 
  assert (Hp : Z.pos p = Z.of_nat (S k)) by (rewrite <- Hk; now rewrite positive_nat_Z).
  split; [| split].
  - rewrite Hp, <- Hk. now apply shr_iter_m.
  - rewrite Hk, shr_iter_r by assumption. f_equal. f_equal. f_equal. lia.
  - reflexivity.
Qed.

Lemma shr_nonpos (mrs : shr_record) (e n : Z) :
  n <= 0 -> shr mrs e n = (mrs, e).
Proof. destruct n; simpl; try reflexivity; lia. Qed.

(** Rounding to nearest adds at most one, and only on a set round bit. *)
Lemma round_nearest_even_cases (mrs : shr_record) :
  let m' := round_nearest_even (shr_m mrs) (loc_of_shr_record mrs) in
  m' = shr_m mrs \/ (m' = shr_m mrs + 1 /\ shr_r mrs = true).
Proof.
  destruct mrs as [m [|] [|]]; simpl; auto.
  destruct (Z.even m); auto.
Qed.


Lemma pow2_lt_inv (a b : Z) : 0 <= b -> 2 ^ a < 2 ^ b -> a < b.
Proof.
  intros Hb Hlt. destruct (Z_lt_le_dec a b) as [|Hle]; [assumption | exfalso].
  assert (2 ^ b <= 2 ^ a) by (apply Z.pow_le_mono_r; lia). lia.
Qed.

Lemma Pos_compare_cont_lt (p q : positive) :
  Z.pos p < Z.pos q -> Pos.compare_cont Eq p q = Lt.
Proof. intros H. exact H. Qed.

(** The last step of [binary_round_aux]: a mantissa and an exponent that
    lie below [500 = 8796093022208000 * 2 ^ -44] give a number in
    [0 <= x < 500]. *)
Lemma below_500_finish (mm ee : Z) :
  0 <= mm ->
  ee < -44 \/ (ee = -44 /\ mm < 8796093022208000) ->
  let res :=
    match mm with
    | Z0 => S754_zero false
    | Zpos p =>
        if Z.leb ee (1024 - 53) then S754_finite false p ee
        else S754_infinity false
    | Zneg _ => S754_nan
    end in
  SFleb (S754_zero false) res = true /\
  SFltb res (S754_finite false 8796093022208000 (-44)) = true.
Proof.
  intros Hmm Hlt. destruct mm as [| p | p]; [| | lia]; cbv zeta.
  - split; reflexivity.
  - replace (Z.leb ee (1024 - 53)) with true by (symmetry; apply Z.leb_le; lia).
    split; [reflexivity |].
    unfold SFltb, SFcompare.
    destruct (Z.compare_spec ee (-44)) as [Heq | Hl | Hg]; [| reflexivity | lia].
    destruct Hlt as [Hlt | [_ Hlt]]; [lia |].
    rewrite (Pos_compare_cont_lt p _ Hlt). reflexivity.
Qed.

(** The product of a binary64 mantissa and exponent below one with 500,
    rounded to nearest: the heart of [Math.random() * 500 < 500]. *)
Lemma round_product_below_500 (m : positive) (e : Z) :
  Z.pos m < 2 ^ 53 -> -1074 <= e <= -53 ->
  let res := binary_round_aux 53 1024 false
               (Z.pos (m * 8796093022208000)) (e + -44) loc_Exact in
  SFleb (S754_zero false) res = true /\
  SFltb res (S754_finite false 8796093022208000 (-44)) = true.
Proof.
  intros Hm He.
  set (K := 8796093022208000).
  set (M := Z.pos (m * 8796093022208000)).
  set (E0 := e + -44).
  assert (HM : M = Z.pos m * K) by (unfold M; rewrite Pos2Z.inj_mul; reflexivity).
  assert (HMpos : 0 < M) by apply Pos2Z.is_pos.
  assert (Hd := Zdigits2_bounds M HMpos).
  set (d := Zdigits2 M) in *.
  assert (Hd0 : 0 <= d) by apply Zdigits2_nonneg.
  (* the magnitude of the product *)
  assert (Hpe : 2 ^ 53 <= 2 ^ (- e)) by (apply Z.pow_le_mono_r; lia).
  assert (HMlt : M < K * 2 ^ (- e)) by (unfold K in *; nia).
  assert (HD : d + E0 <= 9).
  { assert (2 ^ (d - 1) < 2 ^ (53 - e)).
    { replace (53 - e) with (53 + - e) by lia. rewrite Z.pow_add_r by lia.
      unfold K in *. nia. }
    assert (d - 1 < 53 - e) by (apply pow2_lt_inv; lia).
    unfold E0. lia. }
  unfold binary_round_aux, shr_fexp. cbv zeta.
  fold d.
  set (n := fexp 53 1024 (d + E0) - E0).
  assert (Hn : n = Z.max (d + E0 - 53) (-1074) - E0) by reflexivity.
  change (shr_record_of_loc M loc_Exact) with (Build_shr_record M false false).
  destruct (Z_le_gt_dec n 0) as [Hn0 | Hn0].
  - (* no shift: the product is exact *)
    rewrite (shr_nonpos _ _ n Hn0).
    cbn [shr_m loc_of_shr_record round_nearest_even shr_record_of_loc].
    fold d. fold n. rewrite (shr_nonpos _ _ n Hn0). cbn [shr_m].
    apply (below_500_finish M E0); [lia |]. left. unfold E0. lia.
  - (* a shift by [n] bits, then rounding *)
    destruct (shr_pos (Build_shr_record M false false) E0 n) as (Hq & Hr & HE1);
      [simpl; lia | lia |].
    destruct (shr (Build_shr_record M false false) E0 n) as [mrs1 E1].
    cbn [fst snd shr_m] in Hq, Hr, HE1.
    assert (Hcases := round_nearest_even_cases mrs1). cbv zeta in Hcases.
    set (m1 := round_nearest_even (shr_m mrs1) (loc_of_shr_record mrs1)) in *.
    change (shr_record_of_loc m1 loc_Exact) with (Build_shr_record m1 false false).
    assert (Hq0 : 0 <= shr_m mrs1) by (rewrite Hq; apply Z.div_pos; lia).
    assert (Hq53 : shr_m mrs1 < 2 ^ 53).
    { rewrite Hq. apply Z.div_lt_upper_bound; [lia |].
      rewrite <- Z.pow_add_r by lia.
      assert (2 ^ d <= 2 ^ (n + 53)) by (apply Z.pow_le_mono_r; lia). lia. }
    assert (Hm1 : 0 <= m1 <= 2 ^ 53) by lia.
    assert (HE1' : E1 = Z.max (d + E0 - 53) (-1074)) by lia.
    set (n2 := fexp 53 1024 (Zdigits2 m1 + E1) - E1).
    assert (Hn2 : n2 = Z.max (Zdigits2 m1 + E1 - 53) (-1074) - E1) by reflexivity.
    destruct (Z.eq_dec (d + E0) 9) as [HD9 | HD9].
    + (* the binade of 500: the rounded mantissa stays below that of 500 *)
      assert (Hd106 : d <= 106).
      { apply Zdigits2_le; [| lia]. split; [lia |].
        change (2 ^ 106) with (2 ^ 53 * 2 ^ 53). unfold K in *. nia. }
      assert (e = -53) by (unfold E0 in *; lia). subst e.
      assert (n = 53) by (unfold E0 in *; lia).
      assert (HE44 : E1 = -44) by lia.
      assert (Hm1K : m1 < K).
      { replace n with 53 in * by lia.
        change (53 - 1) with 52 in Hr.
        assert (Hdm := Z.div_mod M (2 ^ 53) ltac:(lia)).
        assert (Hmod := Z.mod_pos_bound M (2 ^ 53) ltac:(lia)).
        assert (Hdm' := Z.div_mod M (2 ^ 52) ltac:(lia)).
        assert (Hmod' := Z.mod_pos_bound M (2 ^ 52) ltac:(lia)).
        assert (HqK : shr_m mrs1 < K).
        { rewrite Hq. apply Z.div_lt_upper_bound; [lia |]. unfold K in *. lia. }
        destruct Hcases as [-> | [-> Hrt]]; [assumption |].
        rewrite Hrt in Hr. symmetry in Hr. apply Z.odd_spec in Hr.
        destruct Hr as [h Hh].
        assert (Hhalf : M / 2 ^ 53 = h).
        { replace (2 ^ 53) with (2 ^ 52 * 2) by reflexivity.
          rewrite <- Z.div_div by lia. rewrite Hh.
          symmetry. apply Z.div_unique with (r := 1); lia. }
        rewrite Hq, Hhalf in *. unfold K in *. lia. }
      assert (Hdg : Zdigits2 m1 <= 53) by (apply Zdigits2_le; unfold K in *; lia).
      rewrite (shr_nonpos _ _ n2) by lia. cbn [shr_m].
      apply (below_500_finish m1 E1); [lia |]. right. split; [lia | assumption].
    + (* a smaller binade: even a carry stays below 500 *)
      assert (HE45 : E1 <= -45) by lia.
      assert (Hdg : Zdigits2 m1 <= 54).
      { apply Zdigits2_le; [| lia]. change (2 ^ 54) with (2 ^ 53 * 2). lia. }
      destruct (Z_le_gt_dec n2 0) as [Hn20 | Hn20].
      * rewrite (shr_nonpos _ _ n2 Hn20). cbn [shr_m].
        apply (below_500_finish m1 E1); [lia |]. left. lia.
      * assert (n2 = 1) by lia.
        destruct (shr_pos (Build_shr_record m1 false false) E1 n2) as (Hq2 & _ & HE2);
          [simpl; lia | lia |].
        destruct (shr (Build_shr_record m1 false false) E1 n2) as [mrs2 E2].
        cbn [fst snd shr_m] in Hq2, HE2.
        apply (below_500_finish (shr_m mrs2) E2).
        -- rewrite Hq2. apply Z.div_pos; lia.
        -- assert (shr_m mrs2 <= 2 ^ 52).
           { rewrite Hq2. replace n2 with 1 by lia.
             apply Z.div_le_upper_bound; [lia |]. change (2 ^ 1 * 2 ^ 52) with (2 ^ 53). lia. }
           destruct (Z.eq_dec E2 (-44)); [right | left]; [| lia].
           split; [assumption |]. 
           assert (2 ^ 52 < 8796093022208000) by reflexivity. lia.
Qed.


Lemma Pos_compare_cont_lt_inv (p q : positive) :
  Pos.compare_cont Eq p q = Lt -> Z.pos p < Z.pos q.
Proof. intros H. exact H. Qed.

(** A binary64 number below one: its mantissa has at most 53 bits and its
    exponent is at most -53. *)
Lemma below_one_bounds (m : positive) (e : Z) :
  Number.valid (S754_finite false m e) = true ->
  Number.ltb (S754_finite false m e) (Number.of_Z 1) = true ->
  Z.pos m < 2 ^ 53 /\ -1074 <= e <= -53.
Proof.
  unfold Number.valid, valid_binary, bounded, canonical_mantissa.
  intros Hv Hlt. apply andb_prop in Hv. destruct Hv as [Hc _].
  apply Z.eqb_eq in Hc. unfold fexp, emin, Number.prec, Number.emax in Hc.
  assert (Hd := digits2_pos_bounds m).
  set (dm := Z.pos (digits2_pos m)) in *.
  assert (Hdm : dm <= 53) by lia.
  assert (Hm : Z.pos m < 2 ^ 53).
  { assert (2 ^ dm <= 2 ^ 53) by (apply Z.pow_le_mono_r; lia). lia. }
  split; [assumption |]. split; [lia |].
  change (Number.of_Z 1) with (S754_finite false 4503599627370496 (-52)) in Hlt.
  unfold Number.ltb, SFltb, SFcompare in Hlt.
  destruct (Z.compare_spec e (-52)) as [Heq | Hl | Hg]; [| lia | discriminate].
  exfalso. subst e.
  assert (Hmlt : Z.pos m < Z.pos 4503599627370496).
  { apply Pos_compare_cont_lt_inv.
    destruct (Pos.compare_cont Eq m 4503599627370496); [discriminate | reflexivity | discriminate]. }
  assert (dm = 53) by lia.
  replace (dm - 1) with 52 in Hd by lia.
  change (2 ^ 52) with (Z.pos 4503599627370496) in Hd. lia.
Qed.

End Rounding.

(** [Math.random() * 500] lies in [0 <= x < 500]: the product of a number
    in [0, 1) with 500, rounded to nearest, does not reach 500. *)
Lemma random_times_500 (r : Number.t) :
  Number.is_random r ->
  Number.leb (Number.of_Z 0) (Number.mul r (Number.of_Z 500)) = true /\
  Number.ltb (Number.mul r (Number.of_Z 500)) (Number.of_Z 500) = true.
Proof.
  intros (Hv & H0 & H1).
  change (Number.of_Z 500) with (S754_finite false 8796093022208000 (-44)).
  change (Number.of_Z 0) with (S754_zero false) in *.
  destruct r as [s | s | | s m e].
  - destruct s; split; reflexivity.
  - destruct s; discriminate.
  - discriminate.
  - destruct s; [discriminate |].
    destruct (below_one_bounds m e Hv H1) as [Hm He].
    exact (round_product_below_500 m e Hm He).
Qed.

(** The draws 0.5 and 0.25 give 250 and 125; the largest draw gives the
    number just below 500, [500 - 2 ^ -44]. *)
Example random_times_500_samples :
  Number.mul one_half (Number.of_Z 500) = Number.of_Z 250 /\
  Number.mul one_quarter (Number.of_Z 500) = Number.of_Z 125 /\
  Number.is_random below_one /\
  Number.mul below_one (Number.of_Z 500) =
    S754_finite false 8796093022207999 (-44).
Proof. vm_compute. repeat split. Qed.

(* ===================================================================== *)
(** * The add-node and connect handlers *)
(* ===================================================================== *)

Section Handlers.

Variable getEdgeId : EdgeParams.t -> string.

Lemma addNode_nodes (rendered : list Node.t) (env : AddNodeEnv) (st : State) :
  nodes (addNode rendered env st) = nodes st ++ [newNode rendered env].
Proof. reflexivity. Qed.

Lemma addNode_edges (rendered : list Node.t) (env : AddNodeEnv) (st : State) :
  edges (addNode rendered env st) = edges st.
Proof. reflexivity. Qed.

Lemma onConnect_nodes (params : Connection.t) (st : State) :
  nodes (onConnect getEdgeId params st) = nodes st.
Proof. reflexivity. Qed.


End Handlers.

(** C1: whatever the current node list (and whatever list the handler's
    closure saw), add-node makes the list one longer by appending the new
    node, and the new node's position has 0 <= x < 500 and 0 <= y < 500
    when the two random draws are numbers in [0, 1). *)
Theorem addNode_count_and_position
    (rendered : list Node.t) (env : AddNodeEnv) (st : State) :
  Number.is_random (random_x env) ->
  Number.is_random (random_y env) ->
  let n := newNode rendered env in
  length (nodes (addNode rendered env st)) = S (length (nodes st)) /\
  last (nodes (addNode rendered env st)) = Some n /\
  (Number.leb (Number.of_Z 0) (x (Node.position n)) = true /\
   Number.ltb (x (Node.position n)) (Number.of_Z 500) = true) /\
  (Number.leb (Number.of_Z 0) (y (Node.position n)) = true /\
   Number.ltb (y (Node.position n)) (Number.of_Z 500) = true).
Proof.
  intros Hx Hy n. rewrite addNode_nodes. fold n.
  split; [| split; [| split]].
  - rewrite length_app. simpl. lia.
  - apply last_snoc.
  - exact (random_times_500 (random_x env) Hx).
  - exact (random_times_500 (random_y env) Hy).
Qed.

Lemma addNode_count_and_position_witness :
  Number.is_random (random_x env_a) /\
  Number.is_random (random_y env_a) /\
  length (nodes (addNode initialNodes env_a initialState)) = 4%nat /\
  Number.ltb (x (Node.position (newNode initialNodes env_a))) (Number.of_Z 500) = true /\
  Number.ltb (y (Node.position (newNode initialNodes env_a))) (Number.of_Z 500) = true.
Proof.
  assert (Hx : Number.is_random (random_x env_a)) by (repeat split; reflexivity).
  assert (Hy : Number.is_random (random_y env_a)) by (repeat split; reflexivity).
  destruct (addNode_count_and_position initialNodes env_a initialState Hx Hy)
    as (Hlen & _ & [_ Hxlt] & [_ Hylt]).
  repeat split; assumption.
Defined.

(** C2: from the seeded state (3 nodes, 2 edges) one click on "Add Node"
    gives 4 nodes and 2 edges, and the appended node is labelled
    "Step 4". *)
Theorem click_addNode_initial (env : AddNodeEnv) :
  length (nodes initialState) = 3%nat /\
  length (edges initialState) = 2%nat /\
  length (nodes (click_addNode env initialState)) = 4%nat /\
  length (edges (click_addNode env initialState)) = 2%nat /\
  (fun n => CustomNodeData.label (Node.data n)) <$>
    last (nodes (click_addNode env initialState)) = Some "Step 4".
Proof. repeat split. Qed.

(** Two clicks in a row label their nodes "Step 4" and "Step 5". *)
Example two_clicks_labels :
  (fun n => CustomNodeData.label (Node.data n)) <$>
    nodes (click_addNode env_c (click_addNode env_a initialState)) =
  ["Start"; "Process"; "End"; "Step 4"; "Step 5"].
Proof. reflexivity. Qed.

(** The connect handler through the library's [addEdge]. *)
Section ConnectThroughLibrary.

Variable getEdgeId : EdgeParams.t -> string.

Lemma onConnect_is_onConnect_with (params : Connection.t) (st : State) :
  onConnect getEdgeId params st =
  onConnect_with (addEdge getEdgeId) params st.
Proof. reflexivity. Qed.

(** On a connection with two non-empty ends that is not among the edges
    yet, the library's [addEdge] is the appending one. *)
Lemma library_addEdge_new (edgeParams : EdgeParams.t) (eds : list Edge.t) :
  EdgeParams.source edgeParams <> "" ->
  EdgeParams.target edgeParams <> "" ->
  ReactFlow.connectionExists (ReactFlow.edge_of getEdgeId edgeParams) eds = false ->
  ReactFlow.addEdge getEdgeId edgeParams eds = addEdge getEdgeId edgeParams eds.
Proof.
  intros Hs Ht Hnew. unfold ReactFlow.addEdge.
  apply String.eqb_neq in Hs. apply String.eqb_neq in Ht.
  rewrite Hs, Ht. cbv zeta. rewrite Hnew. reflexivity.
Qed.

(** A connection that is already among the edges, or has an empty end,
    leaves the edge list as it is. *)
Lemma library_addEdge_refused (edgeParams : EdgeParams.t) (eds : list Edge.t) :
  EdgeParams.source edgeParams = "" \/
  EdgeParams.target edgeParams = "" \/
  ReactFlow.connectionExists (ReactFlow.edge_of getEdgeId edgeParams) eds = true ->
  ReactFlow.addEdge getEdgeId edgeParams eds = eds.
Proof.
  intros H. unfold ReactFlow.addEdge.
  destruct (String.eqb_spec (EdgeParams.source edgeParams) "") as [_ | Hs];
    [reflexivity |].
  destruct (String.eqb_spec (EdgeParams.target edgeParams) "") as [_ | Ht];
    [reflexivity |].
  destruct H as [H | [H | H]]; [contradiction | contradiction |].
  simpl. rewrite H. reflexivity.
Qed.

(** Through the library's [addEdge] too, connect leaves the node list as
    it is and keeps every edge that was there, at its place. *)
Lemma onConnect_with_library_frame (params : Connection.t) (st : State) :
  nodes (onConnect_with (ReactFlow.addEdge getEdgeId) params st) = nodes st /\
  take (length (edges st))
       (edges (onConnect_with (ReactFlow.addEdge getEdgeId) params st)) = edges st.
Proof.
  split; [reflexivity |]. unfold onConnect_with, setEdges, ReactFlow.addEdge. simpl.
  destruct (_ || _); [apply firstn_all |].
  destruct (ReactFlow.connectionExists _ _); [apply firstn_all | apply take_app_length].
Qed.

End ConnectThroughLibrary.

(** C3, as the claim states it, fails: on the seeded canvas the
    connection from node 1 to node 2, which the seeded edge 'e1-2'
    already makes, adds no edge; the edge list stays as it is. *)
Lemma onConnect_existing_connection_adds_nothing :
  edges (onConnect_with (ReactFlow.addEdge sample_getEdgeId)
           existing_connection initialState) = edges initialState /\
  length (edges (onConnect_with (ReactFlow.addEdge sample_getEdgeId)
                   existing_connection initialState)) <>
  S (length (edges initialState)).
Proof. split; [reflexivity | discriminate]. Qed.

(** C3, amended: for every edge list and every connection between two
    node handles with non-empty node ids that is not among the edges yet
    (no edge runs between the same nodes and handles), connect appends
    exactly one edge whose source and target are the two node ids of the
    connection and whose type is 'smoothstep'; the edge count grows by
    exactly one. *)
Theorem onConnect_adds_one_new_edge
    (getEdgeId : EdgeParams.t -> string) (params : Connection.t) (st : State) :
  Connection.source params <> "" ->
  Connection.target params <> "" ->
  ReactFlow.connectionExists
    (ReactFlow.edge_of getEdgeId (EdgeParams.spread params "smoothstep"))
    (edges st) = false ->
  exists e : Edge.t,
    edges (onConnect_with (ReactFlow.addEdge getEdgeId) params st) =
      edges st ++ [e] /\
    Edge.source e = Connection.source params /\
    Edge.target e = Connection.target params /\
    Edge.type e = Some "smoothstep" /\
    length (edges (onConnect_with (ReactFlow.addEdge getEdgeId) params st)) =
      S (length (edges st)).
Proof.
  intros Hs Ht Hnew.
  exists (ReactFlow.edge_of getEdgeId (EdgeParams.spread params "smoothstep")).
  unfold onConnect_with, setEdges. cbn [edges].
  rewrite (library_addEdge_new getEdgeId (EdgeParams.spread params "smoothstep") _ Hs Ht Hnew).
  split; [reflexivity |]. repeat split.
  unfold addEdge. rewrite length_app. simpl. lia.
Qed.

Lemma onConnect_adds_one_new_edge_witness :
  Connection.source sample_connection <> "" /\
  Connection.target sample_connection <> "" /\
  ReactFlow.connectionExists
    (ReactFlow.edge_of sample_getEdgeId
       (EdgeParams.spread sample_connection "smoothstep"))
    (edges initialState) = false /\
  length (edges (onConnect_with (ReactFlow.addEdge sample_getEdgeId)
                   sample_connection initialState)) = 3%nat.
Proof.
  assert (Hs : Connection.source sample_connection <> "") by discriminate.
  assert (Ht : Connection.target sample_connection <> "") by discriminate.
  assert (Hnew : ReactFlow.connectionExists
            (ReactFlow.edge_of sample_getEdgeId
               (EdgeParams.spread sample_connection "smoothstep"))
            (edges initialState) = false) by reflexivity.
  destruct (onConnect_adds_one_new_edge sample_getEdgeId sample_connection
              initialState Hs Ht Hnew) as (e & _ & _ & _ & _ & Hlen).
  repeat split; assumption.
Defined.


(* ===================================================================== *)
(** * The export routine *)
(* ===================================================================== *)

Section ExportAsImage.

Variable toPng_outcome : DomNode -> Options -> JsError + string.

(** A [try] block catches what its body throws and passes on what it
    returns. *)
Lemma try_catch_throw {A : Type} (e : JsError) (handler : JsError -> Eff A)
    (log : list Effect) :
  try_catch (throw e) handler log = handler e log.
Proof. reflexivity. Qed.

Lemma try_catch_ret {A : Type} (a : A) (handler : JsError -> Eff A)
    (log : list Effect) :
  try_catch (ret a) handler log = (inr a, log).
Proof. reflexivity. Qed.

(** The filter handed to the rasteriser rejects a node exactly when it is
    an element whose class list holds 'react-flow__controls'. *)
Lemma exportOptions_filter (node : option DomNode) :
  filter exportOptions node = false <->
  exists classList : list string,
    node = Some (Element classList) /\ In "react-flow__controls" classList.
Proof.
  unfold exportOptions, filter, js_not, classList_contains.
  destruct node as [[classList | text] |].
  - rewrite negb_false_iff, existsb_exists. split.
    + intros (c & Hin & Heq). apply String.eqb_eq in Heq. subst c.
      exists classList. split; [reflexivity | exact Hin].
    + intros (cl & Heq & Hin). injection Heq as <-.
      exists "react-flow__controls". split; [exact Hin | apply String.eqb_refl].
  - split; [discriminate | intros (cl & Heq & _); discriminate].
  - split; [discriminate | intros (cl & Heq & _); discriminate].
Qed.

Lemma exportAsImage_failure_run (node : DomNode) (err : JsError) (log : list Effect) :
  toPng_outcome node exportOptions = inl err ->
  exportAsImage toPng_outcome (Some node) log =
  (inr tt,
   log ++ [Rasterize node exportOptions;
           ConsoleError "Error exporting image:" err]).
Proof.
  intros Hfail.
  unfold exportAsImage, try_catch, bind, toPng. rewrite Hfail.
  unfold console_error, emit. rewrite <- app_assoc. reflexivity.
Qed.

Lemma exportAsImage_success_run (node : DomNode) (dataUrl : string) (log : list Effect) :
  toPng_outcome node exportOptions = inr dataUrl ->
  exportAsImage toPng_outcome (Some node) log =
  (inr tt,
   log ++ [Rasterize node exportOptions;
           CreateElement "a";
           Click {| download := "flowchart.png"; href := dataUrl |}]).
Proof.
  intros Hok.
  unfold exportAsImage, try_catch, bind, toPng. rewrite Hok.
  unfold createElement_a, click, bind, emit, ret, set_href, set_download.
  simpl. rewrite <- !app_assoc. reflexivity.
Qed.

Lemma downloads_app (l1 l2 : list Effect) :
  downloads (l1 ++ l2) = downloads l1 ++ downloads l2.
Proof. apply omap_app. Qed.

Lemma rasterizations_app (l1 l2 : list Effect) :
  rasterizations (l1 ++ l2) = rasterizations l1 ++ rasterizations l2.
Proof. apply omap_app. Qed.

Lemma console_errors_app (l1 l2 : list Effect) :
  console_errors (l1 ++ l2) = console_errors l1 ++ console_errors l2.
Proof. apply omap_app. Qed.

End ExportAsImage.

(** The filter on sample nodes: the controls are rejected; the canvas, a
    text node and a missing node are kept. *)
Example filter_samples :
  filter exportOptions (Some sample_controls) = false /\
  filter exportOptions (Some sample_canvas) = true /\
  filter exportOptions (Some (TextNode "Start")) = true /\
  filter exportOptions None = true.
Proof. repeat split. Qed.

(** C4: with the canvas reference null, the export returns normally and
    leaves the effect log as it found it: no rasterisation, no download,
    no log line, nothing thrown. *)
Theorem exportAsImage_null_ref
    (toPng_outcome : DomNode -> Options -> JsError + string)
    (log : list Effect) :
  exportAsImage toPng_outcome None log = (inr tt, log).
Proof. reflexivity. Qed.

(** C5: when the rasterisation fails with an error, the export returns
    normally (the error does not reach the caller); what it has done is
    the rasterisation request and one line on the diagnostic log carrying
    that error: no download, no other effect. *)
Theorem exportAsImage_rasterization_failure
    (toPng_outcome : DomNode -> Options -> JsError + string)
    (node : DomNode) (err : JsError) (log : list Effect) :
  toPng_outcome node exportOptions = inl err ->
  exportAsImage toPng_outcome (Some node) log =
    (inr tt,
     log ++ [Rasterize node exportOptions;
             ConsoleError "Error exporting image:" err]) /\
  console_errors (exportAsImage toPng_outcome (Some node) log).2 =
    console_errors log ++ [("Error exporting image:", err)] /\
  downloads (exportAsImage toPng_outcome (Some node) log).2 = downloads log.
Proof.
  intros Hfail. rewrite (exportAsImage_failure_run _ _ _ _ Hfail).
  split; [reflexivity |].
  cbn [snd]. rewrite console_errors_app, downloads_app. simpl.
  rewrite app_nil_r. split; reflexivity.
Qed.

Lemma exportAsImage_rasterization_failure_witness :
  failing_toPng sample_canvas exportOptions = inl (Thrown "tainted canvas") /\
  exportAsImage failing_toPng (Some sample_canvas) [] =
    (inr tt,
     [Rasterize sample_canvas exportOptions;
      ConsoleError "Error exporting image:" (Thrown "tainted canvas")]) /\
  downloads (exportAsImage failing_toPng (Some sample_canvas) []).2 = [].
Proof.
  split; [reflexivity |].
  destruct (exportAsImage_rasterization_failure failing_toPng sample_canvas
              (Thrown "tainted canvas") [] eq_refl) as (Hrun & _ & Hdl).
  split; [exact Hrun | exact Hdl].
Defined.

(** C6: when the rasterisation succeeds with a data URL, the export asks
    for one rasterisation of the canvas, with background colour '#111827'
    and a filter that rejects exactly the elements of class
    'react-flow__controls', and then triggers exactly one download, named
    "flowchart.png", of that data URL. *)
Theorem exportAsImage_success
    (toPng_outcome : DomNode -> Options -> JsError + string)
    (node : DomNode) (dataUrl : string) (log : list Effect) :
  toPng_outcome node exportOptions = inr dataUrl ->
  exportAsImage toPng_outcome (Some node) log =
    (inr tt,
     log ++ [Rasterize node exportOptions;
             CreateElement "a";
             Click {| download := "flowchart.png"; href := dataUrl |}]) /\
  downloads (exportAsImage toPng_outcome (Some node) log).2 =
    downloads log ++ [ {| download := "flowchart.png"; href := dataUrl |} ] /\
  rasterizations (exportAsImage toPng_outcome (Some node) log).2 =
    rasterizations log ++ [(node, exportOptions)] /\
  console_errors (exportAsImage toPng_outcome (Some node) log).2 =
    console_errors log /\
  backgroundColor exportOptions = "#111827" /\
  (forall n : option DomNode,
     filter exportOptions n = false <->
     exists classList : list string,
       n = Some (Element classList) /\ In "react-flow__controls" classList).
Proof.
  intros Hok. rewrite (exportAsImage_success_run _ _ _ _ Hok).
  split; [reflexivity |].
  cbn [snd]. rewrite downloads_app, rasterizations_app, console_errors_app. simpl.
  rewrite app_nil_r.
  repeat (split; [reflexivity |]). apply exportOptions_filter.
Qed.

Lemma exportAsImage_success_witness :
  working_toPng sample_canvas exportOptions =
    inr "data:image/png;base64,iVBORw0KGgo=" /\
  downloads (exportAsImage working_toPng (Some sample_canvas) []).2 =
    [ {| download := "flowchart.png";
         href := "data:image/png;base64,iVBORw0KGgo=" |} ] /\
  filter exportOptions (Some sample_controls) = false.
Proof.
  split; [reflexivity |].
  destruct (exportAsImage_success working_toPng sample_canvas
              "data:image/png;base64,iVBORw0KGgo=" [] eq_refl)
    as (_ & Hdl & _ & _ & _ & Hfilter).
  split; [exact Hdl |].
  apply Hfilter. exists ["react-flow__panel"; "react-flow__controls"].
  split; [reflexivity | right; left; reflexivity].
Defined.

(* ===================================================================== *)
(** * The label editor *)
(* ===================================================================== *)

Section LabelEditor.

Import CustomNode.

Variable props : Props.

(** A double click on the displayed label opens the input, which shows
    the component's own label string. *)
Lemma doubleClick_opens_input (st : CustomNode.State) :
  isEditing st = false ->
  render props (handle props st DoubleClick) = Input (CustomNode.label st).
Proof.
  intros Hd. unfold handle, render. rewrite Hd. simpl. reflexivity.
Qed.

(** On the first double click after the mount the input shows the label
    of the node. *)
Lemma first_doubleClick_seeded :
  render props (handle props (mount props) DoubleClick) =
  Input (CustomNodeData.label (data props)).
Proof. reflexivity. Qed.

(** Losing focus closes the input. *)
Lemma blur_closes_input (st : CustomNode.State) :
  isEditing st = true ->
  render props (handle props st Blur) =
  Display (CustomNodeData.label (data props)).
Proof.
  intros He. unfold handle, render. rewrite He. simpl. reflexivity.
Qed.

(** The Enter key closes the input; any other key leaves it open. *)
Lemma enter_closes_input (st : CustomNode.State) :
  isEditing st = true ->
  render props (handle props st (KeyDown "Enter")) =
  Display (CustomNodeData.label (data props)).
Proof.
  intros He. unfold handle, render. rewrite He. simpl. reflexivity.
Qed.

Lemma other_key_keeps_input (st : CustomNode.State) (key : string) :
  isEditing st = true -> key <> "Enter" ->
  handle props st (KeyDown key) = st.
Proof.
  intros He Hk. unfold handle, render, onKeyDown. rewrite He.
  destruct (String.eqb_spec key "Enter") as [Heq | _]; [contradiction | reflexivity].
Qed.

(** Typing changes the component's own string only; what is displayed
    after the input closes is still the label of the props. *)
Lemma change_keeps_display (st : CustomNode.State) (value : string) :
  isEditing st = true ->
  render props (handle props (handle props st (Change value)) Blur) =
  Display (CustomNodeData.label (data props)).
Proof.
  destruct st as [editing l]. simpl. intros ->. reflexivity.
Qed.

End LabelEditor.

(** The toggle of the label editor: a mounted node displays its label; a
    double click on it opens the input, seeded on this first opening with
    the node's label; from an open input, whatever it holds, losing focus
    and the Enter key both bring the displayed label back. *)
Theorem label_editor_toggle (props : CustomNode.Props) (typed : string) :
  let editing := {| CustomNode.isEditing := true; CustomNode.label := typed |} in
  CustomNode.render props (CustomNode.mount props) =
    CustomNode.Display (CustomNodeData.label (CustomNode.data props)) /\
  CustomNode.render props
    (CustomNode.handle props (CustomNode.mount props) CustomNode.DoubleClick) =
    CustomNode.Input (CustomNodeData.label (CustomNode.data props)) /\
  CustomNode.render props (CustomNode.handle props editing CustomNode.Blur) =
    CustomNode.Display (CustomNodeData.label (CustomNode.data props)) /\
  CustomNode.render props
    (CustomNode.handle props editing (CustomNode.KeyDown "Enter")) =
    CustomNode.Display (CustomNodeData.label (CustomNode.data props)).
Proof.
  cbv zeta. split; [reflexivity |]. split; [apply first_doubleClick_seeded |].
  split; [apply blur_closes_input | apply enter_closes_input]; reflexivity.
Qed.

(** C7: at the node "Start", after one edit session in which the user
    typed "X" and pressed Enter, the label on display is still "Start",
    and a double click on it opens the input with "X", not with the
    node's label. *)
Theorem reopened_input_shows_stale_text :
  let st :=
    CustomNode.run start_props (CustomNode.mount start_props)
      [CustomNode.DoubleClick; CustomNode.Change "X"; CustomNode.KeyDown "Enter"] in
  CustomNodeData.label (CustomNode.data start_props) = "Start" /\
  CustomNode.render start_props st = CustomNode.Display "Start" /\
  CustomNode.render start_props
    (CustomNode.handle start_props st CustomNode.DoubleClick) =
  CustomNode.Input "X".
Proof. repeat split. Qed.

(* ===================================================================== *)
(** * The page: frame of the label editor, node identifiers *)
(* ===================================================================== *)

Section Page.

Variable getEdgeId : EdgeParams.t -> string.

Lemma step_NodeEvent_flow (app : App.t) (i : string) (ev : CustomNode.Event) :
  App.flow (App.step getEdgeId app (App.NodeEvent i ev)) = App.flow app.
Proof.
  unfold App.step. destruct (App.find_node i (nodes (App.flow app))); reflexivity.
Qed.

Lemma run_cons (app : App.t) (a : App.Action) (actions : list App.Action) :
  App.run getEdgeId app (a :: actions) =
  App.run getEdgeId (App.step getEdgeId app a) actions.
Proof. reflexivity. Qed.

(** The node ids after a run: those before, then one per add-node click,
    the timestamp it read printed in decimal. *)
Lemma run_node_ids (actions : list App.Action) (app : App.t) :
  Node.id <$> nodes (App.flow (App.run getEdgeId app actions)) =
  (Node.id <$> nodes (App.flow app)) ++
  (Number.toString <$> App.timestamps actions).
Proof.
  revert app. induction actions as [| a actions IH]; intros app.
  - simpl. now rewrite app_nil_r.
  - rewrite run_cons, IH. destruct a as [env | params | i ev].
    + simpl. rewrite fmap_app. simpl. rewrite <- app_assoc. reflexivity.
    + reflexivity.
    + rewrite step_NodeEvent_flow. reflexivity.
Qed.

End Page.

(** Printing an integer in decimal loses nothing. *)
Lemma toString_inj (z1 z2 : Z) :
  Number.toString z1 = Number.toString z2 -> z1 = z2.
Proof.
  unfold Number.toString. intros H.
  apply (f_equal NilEmpty.int_of_string) in H.
  rewrite !NilEmpty.isi in H. injection H as H.
  apply (f_equal Z.of_int) in H. now rewrite !DecimalZ.of_to in H.
Qed.

(** C8: whatever the label editors of the nodes are sent (double clicks,
    typing, Enter and other keys, blur, at any node ids and in any
    order), the shared state of the page, with the node list and every
    node's label in it, is what it was. *)
Theorem label_editor_leaves_nodes
    (getEdgeId : EdgeParams.t -> string) (app : App.t)
    (evs : list (string * CustomNode.Event)) :
  let actions := (fun p => App.NodeEvent p.1 p.2) <$> evs in
  App.flow (App.run getEdgeId app actions) = App.flow app /\
  nodes (App.flow (App.run getEdgeId app actions)) = nodes (App.flow app).
Proof.
  cbv zeta.
  assert (H : App.flow (App.run getEdgeId app
                ((fun p => App.NodeEvent p.1 p.2) <$> evs)) = App.flow app).
  { revert app. induction evs as [| [i ev] evs IH]; intros app; [reflexivity |].
    rewrite fmap_cons, run_cons, IH. apply step_NodeEvent_flow. }
  split; [exact H | now rewrite H].
Qed.

(** C9, as the claim states it, fails: two add-node clicks that read the
    same millisecond from the clock give two nodes the same id. *)
Lemma node_ids_clash_same_millisecond :
  ~ NoDup (Node.id <$>
             nodes (App.flow (App.run sample_getEdgeId App.initial
                                [App.ClickAddNode env_a; App.ClickAddNode env_b]))).
Proof.
  intros H.
  assert (Habs : 3%nat = 4%nat).
  { apply (NoDup_lookup _ 3 4 "1700000000000" H); reflexivity. }
  discriminate.
Qed.

(** C9, amended: in every state reached from the seeded state by the
    custom actions, the node ids are pairwise distinct, provided the
    timestamps read by the add-node clicks are pairwise distinct and none
    of them is 1, 2 or 3 (the ids of the seeded nodes). *)
Theorem node_ids_unique_distinct_timestamps
    (getEdgeId : EdgeParams.t -> string) (actions : list App.Action) :
  NoDup (App.timestamps actions) ->
  Forall (fun t => t <> 1%Z /\ t <> 2%Z /\ t <> 3%Z) (App.timestamps actions) ->
  NoDup (Node.id <$> nodes (App.flow (App.run getEdgeId App.initial actions))).
Proof.
  intros Hnd Hseed. rewrite run_node_ids.
  change (Node.id <$> nodes (App.flow App.initial))
    with (Number.toString <$> [1%Z; 2%Z; 3%Z]).
  rewrite <- fmap_app.
  apply NoDup_fmap_2; [intros z1 z2; apply toString_inj |].
  apply NoDup_app. split; [| split; [| exact Hnd]].
  - apply (bool_decide_unpack _). reflexivity.
  - intros t Hin Hin'. rewrite Forall_forall in Hseed.
    destruct (Hseed t Hin') as (H1 & H2 & H3).
    rewrite !elem_of_cons, elem_of_nil in Hin. intuition congruence.
Qed.

Lemma node_ids_unique_distinct_timestamps_witness :
  let actions :=
    [App.ClickAddNode env_a; App.Connect sample_connection;
     App.NodeEvent "2" CustomNode.DoubleClick; App.ClickAddNode env_c] in
  NoDup (App.timestamps actions) /\
  Forall (fun t => t <> 1%Z /\ t <> 2%Z /\ t <> 3%Z) (App.timestamps actions) /\
  NoDup (Node.id <$>
           nodes (App.flow (App.run sample_getEdgeId App.initial actions))).
Proof.
  cbv zeta.
  assert (Hnd : NoDup (App.timestamps
                  [App.ClickAddNode env_a; App.Connect sample_connection;
                   App.NodeEvent "2" CustomNode.DoubleClick; App.ClickAddNode env_c]))
    by (apply (bool_decide_unpack _); reflexivity).
  assert (Hseed : Forall (fun t => t <> 1%Z /\ t <> 2%Z /\ t <> 3%Z)
                    (App.timestamps
                       [App.ClickAddNode env_a; App.Connect sample_connection;
                        App.NodeEvent "2" CustomNode.DoubleClick; App.ClickAddNode env_c]))
    by (repeat constructor; discriminate).
  split; [exact Hnd |]. split; [exact Hseed |].
  exact (node_ids_unique_distinct_timestamps sample_getEdgeId _ Hnd Hseed).
Defined.

(* ===================================================================== *)
(** * Runs of the page: what the node list keeps *)
(* ===================================================================== *)

Section Runs.

Variable getEdgeId : EdgeParams.t -> string.

(** One action appends at most one node: the node of an add-node click. *)
Lemma step_nodes (app : App.t) (a : App.Action) :
  nodes (App.flow (App.step getEdgeId app a)) =
  nodes (App.flow app) ++
  match a with
  | App.ClickAddNode env => [newNode (nodes (App.flow app)) env]
  | _ => []
  end.
Proof.
  destruct a as [env | params | i ev].
  - reflexivity.
  - simpl. now rewrite app_nil_r.
  - rewrite step_NodeEvent_flow. now rewrite app_nil_r.
Qed.

Lemma run_nodes_suffix (actions : list App.Action) (app : App.t) :
  exists added : list Node.t,
    nodes (App.flow (App.run getEdgeId app actions)) =
      nodes (App.flow app) ++ added /\
    length added = length (App.timestamps actions).
Proof.
  revert app. induction actions as [| a actions IH]; intros app.
  - exists []. split; [simpl; now rewrite app_nil_r | reflexivity].
  - rewrite run_cons. destruct (IH (App.step getEdgeId app a)) as (added & Hn & Hl).
    rewrite step_nodes in Hn. rewrite <- app_assoc in Hn.
    eexists. split; [exact Hn |].
    rewrite length_app, Hl. destruct a; reflexivity.
Qed.

Lemma run_labels (actions : list App.Action) (app : App.t) :
  labels (nodes (App.flow (App.run getEdgeId app actions))) =
  labels (nodes (App.flow app)) ++
  (step_label <$> seq (S (length (nodes (App.flow app))))
                      (length (App.timestamps actions))).
Proof.
  revert app. induction actions as [| a actions IH]; intros app.
  - simpl. now rewrite app_nil_r.
  - rewrite run_cons, IH, step_nodes. destruct a as [env | params | i ev].
    + unfold labels. rewrite fmap_app, length_app, <- app_assoc. simpl.
      f_equal. f_equal.
      * unfold step_label. do 2 f_equal. lia.
      * do 2 f_equal. lia.
    + now rewrite app_nil_r.
    + now rewrite app_nil_r.
Qed.

Lemma run_Forall_nodes (P : Node.t -> Prop) (actions : list App.Action) (app : App.t) :
  Forall P (nodes (App.flow app)) ->
  (forall (rendered : list Node.t) (env : AddNodeEnv),
     In (App.ClickAddNode env) actions -> P (newNode rendered env)) ->
  Forall P (nodes (App.flow (App.run getEdgeId app actions))).
Proof.
  revert app. induction actions as [| a actions IH]; intros app Happ Hnew.
  - exact Happ.
  - rewrite run_cons. apply IH.
    + rewrite step_nodes. apply Forall_app. split; [exact Happ |].
      destruct a as [env | params | i ev]; [| constructor | constructor].
      constructor; [| constructor]. apply Hnew. left. reflexivity.
    + intros rendered env Hin. apply Hnew. right. exact Hin.
Qed.

End Runs.

(** The custom actions never remove, reorder or change a node: after any
    run the old node list is a prefix of the new one, and the list has
    grown by one node per add-node click. *)
Theorem run_only_appends_nodes
    (getEdgeId : EdgeParams.t -> string) (app : App.t)
    (actions : list App.Action) :
  nodes (App.flow app) `prefix_of`
    nodes (App.flow (App.run getEdgeId app actions)) /\
  length (nodes (App.flow (App.run getEdgeId app actions))) =
    (length (nodes (App.flow app)) + length (App.timestamps actions))%nat.
Proof.
  destruct (run_nodes_suffix getEdgeId actions app) as (added & Hn & Hl).
  rewrite Hn. split; [now exists added |].
  rewrite length_app, Hl. reflexivity.
Qed.

(** The default labels count up: after any run from the seeded state the
    labels are "Start", "Process", "End" and then "Step 4", "Step 5", ...,
    one per add-node click, whatever connections and label edits happen
    in between. *)
Theorem run_labels_count_up
    (getEdgeId : EdgeParams.t -> string) (actions : list App.Action) :
  labels (nodes (App.flow (App.run getEdgeId App.initial actions))) =
  ["Start"; "Process"; "End"] ++
  (step_label <$> seq 4 (length (App.timestamps actions))).
Proof. rewrite run_labels. reflexivity. Qed.

(** Every node of a state reached from the seeded state has the type
    'custom', which [nodeTypes] resolves to the [CustomNode] component. *)
Theorem run_node_types_resolve
    (getEdgeId : EdgeParams.t -> string) (actions : list App.Action) :
  Forall (fun n => Node.type n = "custom" /\
                   nodeTypes !! Node.type n = Some CustomNodeComponent)
         (nodes (App.flow (App.run getEdgeId App.initial actions))).
Proof.
  apply run_Forall_nodes.
  - repeat constructor.
  - intros rendered env _. split; reflexivity.
Qed.

(** When every draw of [Math.random()] is a number in [0, 1), every node
    of a state reached from the seeded state, seeded or added, has its
    position in [0 <= x < 500], [0 <= y < 500]. *)
Theorem run_positions_in_bounds
    (getEdgeId : EdgeParams.t -> string) (actions : list App.Action) :
  Forall Number.is_random (random_draws actions) ->
  Forall (fun n => in_random_bounds (Node.position n))
         (nodes (App.flow (App.run getEdgeId App.initial actions))).
Proof.
  intros Hdraws. apply run_Forall_nodes.
  - repeat constructor.
  - intros rendered env Hin.
    rewrite Forall_forall in Hdraws.
    assert (Hx : Number.is_random (random_x env)).
    { apply Hdraws. unfold random_draws. apply list_elem_of_bind.
      exists (App.ClickAddNode env). split; [set_solver | now apply list_elem_of_In]. }
    assert (Hy : Number.is_random (random_y env)).
    { apply Hdraws. unfold random_draws. apply list_elem_of_bind.
      exists (App.ClickAddNode env). split; [set_solver | now apply list_elem_of_In]. }
    split.
    + exact (random_times_500 (random_x env) Hx).
    + exact (random_times_500 (random_y env) Hy).
Qed.

Lemma run_positions_in_bounds_witness :
  let actions :=
    [App.ClickAddNode env_a; App.Connect sample_connection;
     App.NodeEvent "2" CustomNode.DoubleClick; App.ClickAddNode env_c] in
  Forall Number.is_random (random_draws actions) /\
  Forall (fun n => in_random_bounds (Node.position n))
         (nodes (App.flow (App.run sample_getEdgeId App.initial actions))).
Proof.
  cbv zeta.
  assert (Hdraws : Forall Number.is_random
            (random_draws
               [App.ClickAddNode env_a; App.Connect sample_connection;
                App.NodeEvent "2" CustomNode.DoubleClick; App.ClickAddNode env_c]))
    by (repeat constructor).
  split; [exact Hdraws |].
  exact (run_positions_in_bounds sample_getEdgeId _ Hdraws).
Defined.

(* ===================================================================== *)
(** * The label editor over sequences of events *)
(* ===================================================================== *)

Lemma handle_props_irrelevant
    (props1 props2 : CustomNode.Props) (st : CustomNode.State)
    (ev : CustomNode.Event) :
  CustomNode.handle props1 st ev = CustomNode.handle props2 st ev.
Proof. destruct st as [[|] l], ev; reflexivity. Qed.

Lemma run_snoc (props : CustomNode.Props) (st : CustomNode.State)
    (evs more : list CustomNode.Event) :
  CustomNode.run props st (evs ++ more) =
  CustomNode.run props (CustomNode.run props st evs) more.
Proof. apply fold_left_app. Qed.

(** How the editor's state evolves does not depend on the node it edits:
    after the mount, its handlers never read the id, the label or the
    selection of the props again. *)
Theorem editor_run_ignores_props
    (props1 props2 : CustomNode.Props) (st : CustomNode.State)
    (evs : list CustomNode.Event) :
  CustomNode.run props1 st evs = CustomNode.run props2 st evs.
Proof.
  revert st. induction evs as [| ev evs IH]; intros st; [reflexivity |].
  simpl. rewrite (handle_props_irrelevant props1 props2). apply IH.
Qed.

(** The last event decides whether the editor is open, whatever came
    before: after a blur or the Enter key it is closed, after a double
    click it is open. *)
Theorem editor_last_event_decides
    (props : CustomNode.Props) (st : CustomNode.State)
    (evs : list CustomNode.Event) :
  CustomNode.isEditing (CustomNode.run props st (evs ++ [CustomNode.Blur])) = false /\
  CustomNode.isEditing
    (CustomNode.run props st (evs ++ [CustomNode.KeyDown "Enter"])) = false /\
  CustomNode.isEditing
    (CustomNode.run props st (evs ++ [CustomNode.DoubleClick])) = true.
Proof.
  rewrite !run_snoc.
  destruct (CustomNode.run props st evs) as [[|] l]; repeat split.
Qed.

(** The typed text outlives the edit session: whatever the history, once
    the input is open, a value typed into it and then left by blur or by
    Enter is not shown on the node (the label of the props is), and is
    what the input shows when it is opened again. *)
Theorem typed_text_survives_reopen
    (props : CustomNode.Props) (st : CustomNode.State)
    (evs : list CustomNode.Event) (typed : string) :
  let by_blur :=
    CustomNode.run props st
      (evs ++ [CustomNode.DoubleClick; CustomNode.Change typed; CustomNode.Blur]) in
  let by_enter :=
    CustomNode.run props st
      (evs ++ [CustomNode.DoubleClick; CustomNode.Change typed;
               CustomNode.KeyDown "Enter"]) in
  CustomNode.render props by_blur =
    CustomNode.Display (CustomNodeData.label (CustomNode.data props)) /\
  CustomNode.render props by_enter =
    CustomNode.Display (CustomNodeData.label (CustomNode.data props)) /\
  CustomNode.render props
    (CustomNode.handle props by_blur CustomNode.DoubleClick) =
    CustomNode.Input typed /\
  CustomNode.render props
    (CustomNode.handle props by_enter CustomNode.DoubleClick) =
    CustomNode.Input typed.
Proof.
  cbv zeta. rewrite !run_snoc.
  destruct (CustomNode.run props st evs) as [[|] l]; repeat split.
Qed.

(* ===================================================================== *)
(** * The export routine on every input *)
(* ===================================================================== *)

(** Whatever the canvas reference, the rasteriser's outcome and the
    effects so far, the export resolves (it never rejects), and it only
    appends to the effect log: what it appends does not depend on what
    the log held. *)
Theorem exportAsImage_never_rejects
    (toPng_outcome : DomNode -> Options -> JsError + string)
    (current : option DomNode) (log : list Effect) :
  (exportAsImage toPng_outcome current log).1 = inr tt /\
  (exportAsImage toPng_outcome current log).2 =
    log ++ (exportAsImage toPng_outcome current []).2.
Proof.
  destruct current as [node |].
  - destruct (toPng_outcome node exportOptions) as [err | dataUrl] eqn:Hout.
    + rewrite !(exportAsImage_failure_run _ _ _ _ Hout). split; reflexivity.
    + rewrite !(exportAsImage_success_run _ _ _ _ Hout). split; reflexivity.
  - split; [reflexivity |]. simpl. now rewrite app_nil_r.
Qed.

(** One run of the export asks for at most one rasterisation, triggers at
    most one download and writes at most one diagnostic line, never both
    a download and a diagnostic line, and does neither without having
    asked for the rasterisation. *)
Theorem exportAsImage_effect_bounds
    (toPng_outcome : DomNode -> Options -> JsError + string)
    (current : option DomNode) :
  let done := (exportAsImage toPng_outcome current []).2 in
  length (rasterizations done) <= 1 /\
  length (downloads done) + length (console_errors done) <= 1 /\
  length (downloads done) + length (console_errors done) <=
    length (rasterizations done) /\
  Forall (fun r => Some r.1 = current /\ r.2 = exportOptions)
         (rasterizations done).
Proof.
  cbv zeta. destruct current as [node |].
  - destruct (toPng_outcome node exportOptions) as [err | dataUrl] eqn:Hout.
    + rewrite (exportAsImage_failure_run _ _ _ _ Hout). simpl.
      repeat split; try lia. repeat constructor.
    + rewrite (exportAsImage_success_run _ _ _ _ Hout). simpl.
      repeat split; try lia. repeat constructor.
  - simpl. repeat split; try lia. constructor.
Qed.

(* ===================================================================== *)
(** * Node ids are never empty *)
(* ===================================================================== *)

(** The decimal print of an integer has at least one digit. *)
Lemma toString_nonempty (z : Z) : Number.toString z <> "".
Proof.
  intros H. assert (Hz : z = 0%Z).
  { unfold Number.toString in H.
    apply (f_equal NilEmpty.int_of_string) in H.
    rewrite NilEmpty.isi in H. simpl in H. injection H as H.
    apply (f_equal Z.of_int) in H. rewrite DecimalZ.of_to in H. exact H. }
  subst z. discriminate H.
Qed.

(** Every node of a state reached from the seeded state has a non-empty
    id, so a connection between two of its nodes has two non-empty
    ends. *)
Lemma run_node_ids_nonempty
    (getEdgeId : EdgeParams.t -> string) (actions : list App.Action) :
  Forall (fun i => i <> "")
         (Node.id <$> nodes (App.flow (App.run getEdgeId App.initial actions))).
Proof.
  rewrite run_node_ids. apply Forall_app. split.
  - repeat constructor; discriminate.
  - apply Forall_fmap, Forall_forall. intros z _. apply toString_nonempty.
Qed.
